(** * Steady incompressible Navier-Stokes simulation
      (sapphire/simulations/navier_stokes.py)

    The Python module is a plug-in for a finite-element framework.  It
    builds symbolic UFL forms (the weak-form residual), a Taylor-Hood mixed
    element, a null-space description, and post-processes the pressure
    after the base class has solved.

    The embedding follows the module function by function:
    - [UFL]     symbolic expressions and forms, as the calls to
                [fe.inner], [fe.dot], [fe.grad], [fe.div], [fe.sym] and the
                overloaded arithmetic operators build them, together with
                their meaning in an arbitrary model of fields;
    - [Firedrake] the objects the module constructs or receives (meshes,
                elements, function spaces, functions and their degrees of
                freedom, null-space bases);
    - [NavierStokes] the class [Simulation] and [strong_residual]. *)

From Stdlib Require Import QArith ZArith Lia.
From stdpp Require Import gmap strings list.

Set Warnings "-register-all".

Open Scope string_scope.
Open Scope list_scope.

(** ** Python exceptions and fallible computations *)

Inductive exn :=
| KeyError (key : string)
| AttributeError (attr : string)
| SolverError (msg : string).

Inductive result (A : Type) :=
| Ok (a : A)
| Raise (e : exn).
Arguments Ok {A} a.
Arguments Raise {A} e.

Definition rbind {A B} (r : result A) (k : A → result B) : result B :=
  match r with
  | Ok a => k a
  | Raise e => Raise e
  end.

Notation "'try!' x := r 'in' k" := (rbind r (λ x, k))
  (at level 10, x name, r at level 100, k at level 200).

(** [d[k]] on a Python dict. *)
Definition getitem {A} (d : gmap string A) (k : string) : result A :=
  match d !! k with
  | Some a => Ok a
  | None => Raise (KeyError k)
  end.

(** ** UFL: symbolic expressions, forms and their meaning *)

Module UFL.

(** Expression trees.  The binary arithmetic constructors are Python's
    overloaded [+], [-], [*], [/]; which product is meant by [*] depends
    on the shapes of the operands and is decided in [eval]. *)
Inductive expr :=
| FloatValue (q : Q)
| Constant (q : Q)
| Coefficient (name : string)
| Argument (name : string)
| Sum (a b : expr)
| Sub (a b : expr)
| Product (a b : expr)
| Division (a b : expr)
| Dot (a b : expr)
| Inner (a b : expr)
| Grad (a : expr)
| Div (a : expr)
| Sym (a : expr).

(** An integration measure such as [dx]. *)
Record measure := Measure { quadrature_degree : option nat }.

Record integral := Integral { integrand : expr; integral_measure : measure }.

(** A form is the list of its integrals. *)
Definition form := list integral.

(** [e * dx] *)
Definition times_measure (e : expr) (m : measure) : form := [Integral e m].

(** [F + G] on forms chains the integrals of both. *)
Definition form_add (F G : form) : form := F ++ G.

(** A model of fields over a domain: carriers for scalar, vector and
    tensor (rank 2) fields, the pointwise and differential operators,
    and integration of a scalar field against a measure. *)
Record Model := {
  scalar : Type;
  vector : Type;
  tensor : Type;
  of_Q : Q → scalar;
  sadd : scalar → scalar → scalar;
  ssub : scalar → scalar → scalar;
  smul : scalar → scalar → scalar;
  sdiv : scalar → scalar → scalar;
  vadd : vector → vector → vector;
  vsub : vector → vector → vector;
  svmul : scalar → vector → vector;
  vsdiv : vector → scalar → vector;
  tadd : tensor → tensor → tensor;
  tsub : tensor → tensor → tensor;
  stmul : scalar → tensor → tensor;
  tsdiv : tensor → scalar → tensor;
  tvmul : tensor → vector → vector;
  ttmul : tensor → tensor → tensor;
  vdot : vector → vector → scalar;
  tinner : tensor → tensor → scalar;
  sgrad : scalar → vector;
  vgrad : vector → tensor;
  vdiv : vector → scalar;
  tdiv : tensor → vector;
  tsym : tensor → tensor;
  integrate : measure → scalar → Q
}.

Inductive val (M : Model) :=
| VS (s : scalar M)
| VV (v : vector M)
| VT (t : tensor M).
Arguments VS {M} s.
Arguments VV {M} v.
Arguments VT {M} t.

(** The fields the symbols of a form stand for. *)
Record env (M : Model) := Env {
  coefficient : string → option (val M);
  argument : string → option (val M)
}.
Arguments coefficient {M} e name.
Arguments argument {M} e name.

Section Eval.
Context {M : Model}.
Variable ρ : env M.

Definition eval_sum (x y : val M) : option (val M) :=
  match x, y with
  | VS a, VS b => Some (VS (sadd M a b))
  | VV a, VV b => Some (VV (vadd M a b))
  | VT a, VT b => Some (VT (tadd M a b))
  | _, _ => None
  end.

Definition eval_sub (x y : val M) : option (val M) :=
  match x, y with
  | VS a, VS b => Some (VS (ssub M a b))
  | VV a, VV b => Some (VV (vsub M a b))
  | VT a, VT b => Some (VT (tsub M a b))
  | _, _ => None
  end.

(** [a * b]: product of scalars, scaling by a scalar on either side,
    matrix-vector and matrix-matrix product; two vectors cannot be
    multiplied with [*]. *)
Definition eval_product (x y : val M) : option (val M) :=
  match x, y with
  | VS a, VS b => Some (VS (smul M a b))
  | VS a, VV b => Some (VV (svmul M a b))
  | VV a, VS b => Some (VV (svmul M b a))
  | VS a, VT b => Some (VT (stmul M a b))
  | VT a, VS b => Some (VT (stmul M b a))
  | VT a, VV b => Some (VV (tvmul M a b))
  | VT a, VT b => Some (VT (ttmul M a b))
  | _, _ => None
  end.

(** [a / b]: the denominator is a scalar. *)
Definition eval_division (x y : val M) : option (val M) :=
  match x, y with
  | VS a, VS b => Some (VS (sdiv M a b))
  | VV a, VS b => Some (VV (vsdiv M a b))
  | VT a, VS b => Some (VT (tsdiv M a b))
  | _, _ => None
  end.

(** [dot(a, b)] contracts the last index of [a] with the first of [b];
    the vector-tensor contraction is not part of the model. *)
Definition eval_dot (x y : val M) : option (val M) :=
  match x, y with
  | VS a, VS b => Some (VS (smul M a b))
  | VV a, VV b => Some (VS (vdot M a b))
  | VT a, VV b => Some (VV (tvmul M a b))
  | VT a, VT b => Some (VT (ttmul M a b))
  | _, _ => None
  end.

(** [inner(a, b)] contracts all indices of operands of equal shape. *)
Definition eval_inner (x y : val M) : option (val M) :=
  match x, y with
  | VS a, VS b => Some (VS (smul M a b))
  | VV a, VV b => Some (VS (vdot M a b))
  | VT a, VT b => Some (VS (tinner M a b))
  | _, _ => None
  end.

(** Gradients of tensors (rank 3) are not part of the model. *)
Definition eval_grad (x : val M) : option (val M) :=
  match x with
  | VS a => Some (VV (sgrad M a))
  | VV a => Some (VT (vgrad M a))
  | VT _ => None
  end.

Definition eval_div (x : val M) : option (val M) :=
  match x with
  | VS _ => None
  | VV a => Some (VS (vdiv M a))
  | VT a => Some (VV (tdiv M a))
  end.

Definition eval_sym (x : val M) : option (val M) :=
  match x with
  | VT a => Some (VT (tsym M a))
  | _ => None
  end.

Definition lift2 (f : val M → val M → option (val M))
    (x y : option (val M)) : option (val M) :=
  match x, y with
  | Some a, Some b => f a b
  | _, _ => None
  end.

Definition lift1 (f : val M → option (val M))
    (x : option (val M)) : option (val M) :=
  match x with
  | Some a => f a
  | None => None
  end.

(** Meaning of an expression; [None] when the shapes do not fit. *)
Fixpoint eval (e : expr) : option (val M) :=
  match e with
  | FloatValue q => Some (VS (of_Q M q))
  | Constant q => Some (VS (of_Q M q))
  | Coefficient n => coefficient ρ n
  | Argument n => argument ρ n
  | Sum a b => lift2 eval_sum (eval a) (eval b)
  | Sub a b => lift2 eval_sub (eval a) (eval b)
  | Product a b => lift2 eval_product (eval a) (eval b)
  | Division a b => lift2 eval_division (eval a) (eval b)
  | Dot a b => lift2 eval_dot (eval a) (eval b)
  | Inner a b => lift2 eval_inner (eval a) (eval b)
  | Grad a => lift1 eval_grad (eval a)
  | Div a => lift1 eval_div (eval a)
  | Sym a => lift1 eval_sym (eval a)
  end.

(** Value of one integral: the integrand must be a scalar field. *)
Definition assemble_integral (i : integral) : option Q :=
  match eval (integrand i) with
  | Some (VS s) => Some (integrate M (integral_measure i) s)
  | _ => None
  end.

(** Value of a form: the sum of its integrals. *)
Fixpoint assemble (F : form) : option Q :=
  match F with
  | [] => Some 0%Q
  | i :: F' =>
      match assemble_integral i, assemble F' with
      | Some a, Some b => Some (a + b)%Q
      | _, _ => None
      end
  end.

End Eval.

End UFL.

(** ** Firedrake: the objects the module builds or is handed *)

Module Firedrake.

Inductive cell := interval | triangle | quadrilateral | tetrahedron | hexahedron.

Record Mesh := MkMesh { mesh_id : nat; ufl_cell : cell }.

(** [fe.FiniteElement(family, cell, degree)],
    [fe.VectorElement(family, cell, degree)] and
    [fe.MixedElement(e1, e2, ...)]. *)
Inductive element :=
| FiniteElement (family : string) (c : cell) (degree : Z)
| VectorElement (family : string) (c : cell) (degree : Z)
| MixedElement (sub_elements : list element).

(** [fe.FunctionSpace(mesh, element)] *)
Record FunctionSpace := MkFunctionSpace { fs_mesh : Mesh; ufl_element : element }.

(** [W.sub(i)], a component of a mixed space. *)
Record IndexedSpace := MkIndexedSpace { parent : FunctionSpace; index : nat }.

(** [fe.Function(V)], a new function on [V]. *)
Record Function := MkFunction { function_space : FunctionSpace }.

(** Storage of a scalar function on a Lagrange space: the value at every
    node, next to the integral over the domain of every nodal basis
    function (which the mesh and the element fix).  The basis functions
    add up to one, so their integrals add up to the measure of the
    domain.  Numbers are rationals: the rounding of floating-point
    arithmetic is not modelled. *)
Record fn_data := MkData { basis_integrals : list Q; dofs : list Q }.

Fixpoint weighted_sum (w x : list Q) : Q :=
  match w, x with
  | wi :: w', xi :: x' => (wi * xi + weighted_sum w' x')%Q
  | _, _ => 0%Q
  end.

Definition Qsum (w : list Q) : Q := fold_right Qplus 0%Q w.

(** [fe.assemble(p*dx)] for a function [p]: the integral of [p]. *)
Definition assemble_dx (p : fn_data) : Q :=
  weighted_sum (basis_integrals p) (dofs p).

(** [fe.assemble(1*dx)]: the measure of the domain. *)
Definition domain_measure (p : fn_data) : Q := Qsum (basis_integrals p).

(** The mean of [p] over the domain. *)
Definition domain_mean (p : fn_data) : Q := (assemble_dx p / domain_measure p)%Q.

(** The nodal values of the expression [p - c] for a number [c]. *)
Definition minus_number (p : fn_data) (c : Q) : list Q :=
  map (λ x, (x - c)%Q) (dofs p).

(** [p.assign(values)]: overwrites the nodal values of [p] in place. *)
Definition assign (p : fn_data) (values : list Q) : fn_data :=
  {| basis_integrals := basis_integrals p; dofs := values |}.

(** [fe.VectorSpaceBasis(vecs, constant)]: the space spanned by the
    functions [vecs] and, when [constant] is set, the constant
    functions. *)
Record VectorSpaceBasis := MkBasis { vecs : list (list Q); constant : bool }.

(** An entry of the [bases] argument of [fe.MixedVectorSpaceBasis]: a
    basis, or an indexed function space standing as is for that
    component. *)
Inductive basis_entry :=
| Basis (b : VectorSpaceBasis)
| Subspace (V : IndexedSpace).

(** [fe.MixedVectorSpaceBasis(function_space, bases)] *)
Record MixedVectorSpaceBasis := MkMixedBasis {
  mixed_space : FunctionSpace;
  bases : list basis_entry
}.

(** Number of spanning elements of a basis. *)
Definition basis_size (b : VectorSpaceBasis) : nat :=
  (length (vecs b) + (if constant b then 1 else 0))%nat.

(** Value at node [i] of the combination of [vs] with coefficients [cs]. *)
Fixpoint combination_at (cs : list Q) (vs : list (list Q)) (i : nat) : Q :=
  match cs, vs with
  | c :: cs', v :: vs' => (c * nth i v 0 + combination_at cs' vs' i)%Q
  | _, _ => 0%Q
  end.

(** The nodal values [x] lie in the span of the basis [b]. *)
Definition in_span (b : VectorSpaceBasis) (x : list Q) : Prop :=
  ∃ (cs : list Q) (c : Q),
    length cs = length (vecs b) ∧
    ∀ (i : nat) (xi : Q), x !! i = Some xi →
      (xi == combination_at cs (vecs b) i + (if constant b then c else 0))%Q.

(** The nodal values of a constant function. *)
Definition is_constant (x : list Q) : Prop :=
  ∃ c : Q, ∀ (i : nat) (xi : Q), x !! i = Some xi → (xi == c)%Q.

End Firedrake.

(** ** The module navier_stokes.py *)

Module NavierStokes.
Import UFL Firedrake.

(** *** Construction *)

(** Objects passed as keyword arguments. *)
Inductive pyobj :=
| ObjMesh (m : Mesh)
| ObjFunction (f : Function)
| ObjOther (n : nat).

(** What [__init__] does, in order: the Firedrake objects it constructs,
    the attribute it sets, and the call of the base-class initializer. *)
Inductive event :=
| NewElement (e : element)
| NewFunctionSpace (V : FunctionSpace)
| NewFunction (f : Function)
| NewConstant (c : expr)
| SetAttr (name : string) (value : expr)
| BaseInit (args : list pyobj) (kwargs : gmap string pyobj).

(** A computation that logs events and may raise. *)
Definition logged (A : Type) : Type := list event * result A.

Definition lret {A} (a : A) : logged A := ([], Ok a).

Definition lbind {A B} (m : logged A) (k : A → logged B) : logged B :=
  match m with
  | (l, Ok a) => let '(l', r) := k a in (l ++ l', r)
  | (l, Raise e) => (l, Raise e)
  end.

Definition emit {A} (mk : A → event) (a : A) : logged A := ([mk a], Ok a).

Definition lift {A} (r : result A) : logged A := ([], r).

Notation "'do!' x := m 'in' k" := (lbind m (λ x, k))
  (at level 10, x name, m at level 100, k at level 200).

(** [mesh.ufl_cell()] needs a mesh. *)
Definition as_mesh (o : pyobj) : result Mesh :=
  match o with
  | ObjMesh m => Ok m
  | _ => Raise (AttributeError "ufl_cell")
  end.

(** [Simulation.__init__(self, *args, reynolds_number,
    taylor_hood_pressure_element_degree = 1, **kwargs)].
    An omitted degree is [None]. *)
Definition __init__ (args : list pyobj) (reynolds_number : Q)
    (taylor_hood_pressure_element_degree : option Z)
    (kwargs : gmap string pyobj) : logged unit :=
  let taylor_hood_pressure_element_degree :=
    default 1%Z taylor_hood_pressure_element_degree in
  do! kwargs :=
    match kwargs !! "solution" with
    | None =>
        do! mesh := lift (getitem kwargs "mesh") in
        let kwargs := delete "mesh" kwargs in
        let d := taylor_hood_pressure_element_degree in
        do! m := lift (as_mesh mesh) in
        do! e_p := emit NewElement (FiniteElement "P" (ufl_cell m) d) in
        do! e_u := emit NewElement (VectorElement "P" (ufl_cell m) (d + 1)) in
        do! element := emit NewElement (MixedElement [e_p; e_u]) in
        do! V := emit NewFunctionSpace (MkFunctionSpace m element) in
        do! f := emit NewFunction (MkFunction V) in
        lret (<["solution" := ObjFunction f]> kwargs)
    | Some _ => lret kwargs
    end in
  do! Re := emit NewConstant (Constant reynolds_number) in
  do! _ := emit (SetAttr "reynolds_number") Re in
  do! _ := emit (BaseInit args) kwargs in
  lret ().

(** *** The simulation object *)

Definition loc := nat.

(** The attributes the methods read.  All but [reynolds_number] are set
    up by the base class: the fields and test functions by name, the
    measure [dx], the solution, its space and the subspaces by name, and
    under [post_processing_solution_fields] the sub-functions of the
    solution by name.  A sub-function is a view: it is given by the
    location of its storage, which it shares with the solution. *)
Record Simulation := MkSimulation {
  reynolds_number : expr;
  solution : Function;
  solution_space : FunctionSpace;
  solution_subspaces : gmap string IndexedSpace;
  solution_fields : gmap string expr;
  test_functions : gmap string expr;
  post_processing_solution_fields : gmap string loc;
  dx : measure;
  store : loc → fn_data;
  stdout : list string
}.

(** *** Residuals *)

Definition mass (self : Simulation) : result form :=
  try! u := getitem (solution_fields self) "u" in
  try! psi_p := getitem (test_functions self) "p" in
  Ok (times_measure (Product psi_p (Div u)) (dx self)).

Definition momentum (self : Simulation) : result form :=
  try! p := getitem (solution_fields self) "p" in
  try! u := getitem (solution_fields self) "u" in
  let Re := reynolds_number self in
  try! psi_u := getitem (test_functions self) "u" in
  Ok (times_measure
        (Sum (Sub (Dot psi_u (Product (Grad u) u)) (Product (Div psi_u) p))
             (Product (Division (FloatValue 2) Re)
                      (Inner (Sym (Grad psi_u)) (Sym (Grad u)))))
        (dx self)).

Definition weak_form_residual (self : Simulation) : result form :=
  try! a := mass self in
  try! b := momentum self in
  Ok (form_add a b).

Definition strong_residual (sim : Simulation) (solution : expr * expr)
    : expr * expr :=
  let '(p, u) := solution in
  let Re := reynolds_number sim in
  let r_p := Div u in
  let r_u := Sub (Sum (Product (Grad u) u) (Grad p))
                 (Product (Division (FloatValue 2) Re) (Div (Sym (Grad u)))) in
  (r_p, r_u).

(** *** Null space *)

Definition nullspace (self : Simulation) : result MixedVectorSpaceBasis :=
  let W := solution_space self in
  let b := MkBasis [] true in
  try! V_u := getitem (solution_subspaces self) "u" in
  Ok (MkMixedBasis W [Basis b; Subspace V_u]).

(** *** Solving *)

(** A method that updates the simulation and may raise. *)
Definition method (A : Type) : Type := Simulation → Simulation * result A.

Definition mret {A} (a : A) : method A := λ s, (s, Ok a).

Definition mbind {A B} (m : method A) (k : A → method B) : method B :=
  λ s, match m s with
       | (s', Ok a) => k a s'
       | (s', Raise e) => (s', Raise e)
       end.

Notation "'run!' x := m 'in' k" := (mbind m (λ x, k))
  (at level 10, x name, m at level 100, k at level 200).

Definition read {A} (f : Simulation → A) : method A := λ s, (s, Ok (f s)).

Definition try_read {A} (f : Simulation → result A) : method A := λ s, (s, f s).

Definition set_solution (f : Function) : method unit :=
  λ s, (MkSimulation (reynolds_number s) f (solution_space s)
          (solution_subspaces s) (solution_fields s) (test_functions s)
          (post_processing_solution_fields s) (dx s) (store s) (stdout s),
        Ok ()).

Definition print (line : string) : method unit :=
  λ s, (MkSimulation (reynolds_number s) (solution s) (solution_space s)
          (solution_subspaces s) (solution_fields s) (test_functions s)
          (post_processing_solution_fields s) (dx s) (store s)
          (stdout s ++ [line]),
        Ok ()).

(** Overwrites the storage at [l]. *)
Definition write (l : loc) (d : fn_data) : method unit :=
  λ s, (MkSimulation (reynolds_number s) (solution s) (solution_space s)
          (solution_subspaces s) (solution_fields s) (test_functions s)
          (post_processing_solution_fields s) (dx s)
          (λ l', if decide (l' = l) then d else store s l') (stdout s),
        Ok ()).

Section Solve.

(** [super().solve()]: the solver of the base class; it returns the
    solution. *)
Variable base_solve : method Function.

Definition solve : method Function :=
  run! sol := base_solve in
  run! _ := set_solution sol in
  run! _ := print "Subtracting mean pressure" in
  run! p := try_read (λ self, getitem (post_processing_solution_fields self) "p") in
  run! mean_pressure := read (λ self, assemble_dx (store self p)) in
  run! p_minus_mean := read (λ self, minus_number (store self p) mean_pressure) in
  run! p_new := read (λ self, assign (store self p) p_minus_mean) in
  run! _ := write p p_new in
  run! _ := print "Done subtracting mean pressure" in
  read solution.

End Solve.

End NavierStokes.

(** ** A concrete model: polynomial fields on the unit interval

    In one space dimension scalar, vector and tensor fields all have one
    component; a field is a polynomial in [x], given by its coefficients
    from the constant term up.  It serves to run the forms on examples. *)

Module Poly1D.
Import UFL.

Definition poly := list Q.

Fixpoint padd (a b : poly) : poly :=
  match a, b with
  | [], _ => b
  | _, [] => a
  | x :: a', y :: b' => (x + y)%Q :: padd a' b'
  end.

Definition pscale (c : Q) (a : poly) : poly := map (Qmult c) a.

Definition psub (a b : poly) : poly := padd a (pscale (-1) b).

Fixpoint pmul (a b : poly) : poly :=
  match a with
  | [] => []
  | x :: a' => padd (pscale x b) (0%Q :: pmul a' b)
  end.

(** Division by a constant field. *)
Definition pdiv (a b : poly) : poly := map (λ x, (x / nth 0 b 0)%Q) a.

Fixpoint pderiv_from (k : positive) (a : poly) : poly :=
  match a with
  | [] => []
  | x :: a' => (inject_Z (Zpos k) * x)%Q :: pderiv_from (Pos.succ k) a'
  end.

Definition pderiv (a : poly) : poly :=
  match a with
  | [] => []
  | _ :: a' => pderiv_from 1 a'
  end.

(** Integral over the unit interval of the polynomial whose lowest
    coefficient has degree [k - 1]. *)
Fixpoint pintegral_from (k : positive) (a : poly) : Q :=
  match a with
  | [] => 0%Q
  | x :: a' => (x / inject_Z (Zpos k) + pintegral_from (Pos.succ k) a')%Q
  end.

Definition model : Model := {|
  scalar := poly; vector := poly; tensor := poly;
  of_Q := λ q, [q];
  sadd := padd; ssub := psub; smul := pmul; sdiv := pdiv;
  vadd := padd; vsub := psub; svmul := pmul; vsdiv := pdiv;
  tadd := padd; tsub := psub; stmul := pmul; tsdiv := pdiv;
  tvmul := pmul; ttmul := pmul; vdot := pmul; tinner := pmul;
  sgrad := pderiv; vgrad := pderiv; vdiv := pderiv; tdiv := pderiv;
  tsym := λ t, t;
  integrate := λ _ s, Qred (pintegral_from 1 s)
|}.

End Poly1D.

(** ** Example simulations *)

Module Examples.
Import UFL Firedrake NavierStokes.

Definition unit_interval : Mesh := MkMesh 0 interval.
Definition unit_square : Mesh := MkMesh 1 triangle.

Definition taylor_hood (m : Mesh) (d : Z) : element :=
  MixedElement [FiniteElement "P" (ufl_cell m) d;
                VectorElement "P" (ufl_cell m) (d + 1)].

Definition W : FunctionSpace := MkFunctionSpace unit_interval (taylor_hood unit_interval 1).

(** One cell of length [len] with linear elements: two nodes, each
    basis function integrates to [len / 2]. *)
Definition one_cell (len : Q) (values : list Q) : fn_data :=
  MkData [(len / 2)%Q; (len / 2)%Q] values.

(** Pressure at location 0, velocity at location 1, on an interval of
    length [len]; the pressure is [p0] at both nodes. *)
Definition sim_on (len : Q) (p0 : Q) : Simulation := {|
  reynolds_number := Constant 100;
  solution := MkFunction W;
  solution_space := W;
  solution_subspaces := {[ "p" := MkIndexedSpace W 0; "u" := MkIndexedSpace W 1 ]};
  solution_fields := {[ "p" := Coefficient "p"; "u" := Coefficient "u" ]};
  test_functions := {[ "p" := Argument "p"; "u" := Argument "u" ]};
  post_processing_solution_fields := {[ "p" := 0%nat; "u" := 1%nat ]};
  dx := Measure None;
  store := λ l, match l with
                | O => one_cell len [p0; p0]
                | _ => one_cell len [0%Q; 3%Q]
                end;
  stdout := []
|}.

Definition sim : Simulation := sim_on 1 1.

(** A solver that has converged already: it hands back the solution. *)
Definition solved : method Function := read solution.

(** Polynomial fields: p = 1 + x, u = x^2, psi_p = 1, psi_u = x. *)
Definition fields : env Poly1D.model := {|
  coefficient := λ n, if decide (n = "p") then Some (VS (M:=Poly1D.model) [1; 1]%Q)
                      else if decide (n = "u") then Some (VV (M:=Poly1D.model) [0; 0; 1]%Q)
                      else None;
  argument := λ n, if decide (n = "p") then Some (VS (M:=Poly1D.model) [1]%Q)
                   else if decide (n = "u") then Some (VV (M:=Poly1D.model) [0; 1]%Q)
                   else None
|}.

(** The form a method returned, empty if it raised. *)
Definition form_of (r : result form) : form :=
  match r with
  | Ok F => F
  | Raise _ => []
  end.

(** [sim] with another pressure field and another Reynolds number. *)
Definition other_pressure_and_reynolds : Simulation :=
  MkSimulation (Constant 7) (solution sim) (solution_space sim)
    (solution_subspaces sim)
    (<["p" := Grad (Coefficient "q")]> (solution_fields sim))
    (test_functions sim) (post_processing_solution_fields sim) (dx sim)
    (store sim) (stdout sim).

End Examples.

(** ** The residuals as the specification words them

    The integrands and the strong residual, written with the operators of
    a model of fields: [psi_p * div u] for the mass residual,
    [psi_u . (grad u u) - div psi_u * p + (2/Re) * (sym grad psi_u : sym grad u)]
    for the momentum residual, and [div u],
    [grad u u + grad p - (2/Re) * div (sym grad u)] for the strong form. *)

Module Spec.
Import UFL.

Section Integrands.
Context {M : Model}.

Definition mass_integrand (psi_p : scalar M) (u : vector M) : scalar M :=
  smul M psi_p (vdiv M u).

Definition convection (psi_u u : vector M) : scalar M :=
  vdot M psi_u (tvmul M (vgrad M u) u).

Definition pressure_term (psi_u : vector M) (p : scalar M) : scalar M :=
  smul M (vdiv M psi_u) p.

Definition viscous_term (Re : scalar M) (psi_u u : vector M) : scalar M :=
  smul M (sdiv M (of_Q M 2) Re)
         (tinner M (tsym M (vgrad M psi_u)) (tsym M (vgrad M u))).

Definition momentum_integrand (p Re : scalar M) (u psi_u : vector M) : scalar M :=
  sadd M (ssub M (convection psi_u u) (pressure_term psi_u p))
         (viscous_term Re psi_u u).

Definition strong_r_p (u : vector M) : scalar M := vdiv M u.

Definition strong_r_u (p Re : scalar M) (u : vector M) : vector M :=
  vsub M (vadd M (tvmul M (vgrad M u) u) (sgrad M p))
         (svmul M (sdiv M (of_Q M 2) Re) (tdiv M (tsym M (vgrad M u)))).

End Integrands.

End Spec.

Import UFL Firedrake NavierStokes.

(** ** Shorthands used in the statements *)

(** The events that construct an element, a function space or a function. *)
Definition constructs_space (ev : event) : bool :=
  match ev with
  | NewElement _ | NewFunctionSpace _ | NewFunction _ => true
  | _ => false
  end.

(** The state [solve] leaves when the base solver left [s1] and returned
    [sol], and the pressure sub-function is stored at [p]. *)
Definition solved_state (s1 : Simulation) (sol : Function) (p : loc) : Simulation :=
  MkSimulation (reynolds_number s1) sol (solution_space s1)
    (solution_subspaces s1) (solution_fields s1) (test_functions s1)
    (post_processing_solution_fields s1) (dx s1)
    (λ l, if decide (l = p)
          then assign (store s1 p) (minus_number (store s1 p) (assemble_dx (store s1 p)))
          else store s1 l)
    ((stdout s1 ++ ["Subtracting mean pressure"]) ++ ["Done subtracting mean pressure"]).

(** The state [solve] leaves when the base solver left [s1] and returned
    [sol], and there is no pressure sub-function: the solution is set and
    the first line is printed. *)
Definition interrupted_state (s1 : Simulation) (sol : Function) : Simulation :=
  MkSimulation (reynolds_number s1) sol (solution_space s1)
    (solution_subspaces s1) (solution_fields s1) (test_functions s1)
    (post_processing_solution_fields s1) (dx s1) (store s1)
    (stdout s1 ++ ["Subtracting mean pressure"]).

(** The calls of the base-class initializer among the events. *)
Definition base_inits (tr : list event) : list (list pyobj * gmap string pyobj) :=
  omap (λ ev, match ev with BaseInit a k => Some (a, k) | _ => None end) tr.

(** The attributes set among the events. *)
Definition attrs_set (tr : list event) : list (string * expr) :=
  omap (λ ev, match ev with SetAttr n v => Some (n, v) | _ => None end) tr.

(** The components of a mixed element. *)
Definition mixed_sub_elements (e : element) : list element :=
  match e with
  | MixedElement l => l
  | _ => []
  end.

Definition is_scalar_element (e : element) : bool :=
  match e with
  | FiniteElement _ _ _ => true
  | _ => false
  end.

Definition is_vector_element (e : element) : bool :=
  match e with
  | VectorElement _ _ _ => true
  | _ => false
  end.

(** [sim] without sub-functions for post-processing. *)
Definition sim_without_subfunctions : Simulation :=
  MkSimulation (reynolds_number Examples.sim) (solution Examples.sim)
    (solution_space Examples.sim) (solution_subspaces Examples.sim)
    (solution_fields Examples.sim) (test_functions Examples.sim) ∅
    (dx Examples.sim) (store Examples.sim) (stdout Examples.sim).


(** A solver that does not converge. *)
Definition diverged : method Function :=
  λ s, (s, Raise (SolverError "diverged")).

(** * Properties *)

(** ** Forms *)

Lemma getitem_Some {A} (d : gmap string A) (k : string) (a : A) :
  d !! k = Some a → getitem d k = Ok a.
Proof. intros H. unfold getitem. by rewrite H. Qed.

Lemma getitem_None {A} (d : gmap string A) (k : string) :
  d !! k = None → getitem d k = Raise (KeyError k).
Proof. intros H. unfold getitem. by rewrite H. Qed.

Lemma getitem_agree {A} (d d' : gmap string A) (k : string) :
  d' !! k = d !! k → getitem d' k = getitem d k.
Proof. intros H. unfold getitem. by rewrite H. Qed.

Section FormFacts.
Context {M : Model}.
Variable ρ : env M.

(** A form with a single scalar integral assembles to that integral. *)
Lemma assemble_times_measure (e : expr) (m : measure) (s : scalar M) :
  eval ρ e = Some (VS s) →
  ∃ r : Q, assemble ρ (times_measure e m) = Some r ∧ (r == integrate M m s)%Q.
Proof.
  intros He. unfold times_measure. cbn [assemble].
  unfold assemble_integral. cbn [integrand integral_measure].
  rewrite He. eexists. split; [reflexivity | ring].
Qed.

(** Adding forms adds their values. *)
Lemma assemble_form_add (F G : form) (a b : Q) :
  assemble ρ F = Some a → assemble ρ G = Some b →
  ∃ c : Q, assemble ρ (form_add F G) = Some c ∧ (c == a + b)%Q.
Proof.
  unfold form_add. revert a. induction F as [|i F IH]; intros a HF HG.
  - cbn in HF. injection HF as <-. exists b. split; [exact HG | ring].
  - cbn [assemble] in HF. cbn [app assemble].
    destruct (assemble_integral ρ i) as [x|]; [|discriminate].
    destruct (assemble ρ F) as [y|]; [|discriminate].
    injection HF as <-.
    destruct (IH y eq_refl HG) as (c & -> & Hc).
    eexists. split; [reflexivity|]. rewrite Hc. ring.
Qed.

End FormFacts.

(** C1: for a state providing the fields [p] (scalar) and [u] (vector),
    the test function [psi_u] (vector) and the Reynolds number [Re],
    [momentum()] is the single integral over [dx] whose integrand means
    [psi_u . (grad u u) - div psi_u * p + (2/Re) * (sym grad psi_u : sym grad u)]:
    the viscous term has the factor [2/Re] and takes the symmetric part of
    the gradient of both the test and the trial velocity. *)
Theorem momentum_weak_form (M : Model) (ρ : env M) (self : Simulation)
    (e_p e_u e_psi : expr) (p Re : scalar M) (u psi_u : vector M) :
  solution_fields self !! "p" = Some e_p →
  solution_fields self !! "u" = Some e_u →
  test_functions self !! "u" = Some e_psi →
  eval ρ e_p = Some (VS p) →
  eval ρ e_u = Some (VV u) →
  eval ρ e_psi = Some (VV psi_u) →
  eval ρ (reynolds_number self) = Some (VS Re) →
  ∃ (e : expr) (r : Q),
    momentum self = Ok [Integral e (dx self)] ∧
    eval ρ e = Some (VS (Spec.momentum_integrand p Re u psi_u)) ∧
    assemble ρ [Integral e (dx self)] = Some r ∧
    (r == integrate M (dx self) (Spec.momentum_integrand p Re u psi_u))%Q.
Proof.
  intros Hp Hu Hpsi Ep Eu Epsi ERe.
  unfold momentum.
  rewrite (getitem_Some _ _ _ Hp), (getitem_Some _ _ _ Hu),
    (getitem_Some _ _ _ Hpsi).
  cbn [rbind]. unfold times_measure.
  match goal with |- context [Integral ?e0 _] => set (e := e0) end.
  assert (He : eval ρ e = Some (VS (Spec.momentum_integrand p Re u psi_u))).
  { subst e. cbn [eval]. rewrite Ep, Eu, Epsi, ERe. reflexivity. }
  destruct (assemble_times_measure ρ e (dx self) _ He) as (r & Hr & Hq).
  exists e, r. repeat split; assumption.
Qed.

Lemma momentum_weak_form_witness :
  ∃ (e : expr) (r : Q),
    momentum Examples.sim = Ok [Integral e (dx Examples.sim)] ∧
    eval Examples.fields e
      = Some (VS (M:=Poly1D.model)
                (Spec.momentum_integrand (M:=Poly1D.model)
                   [1; 1]%Q [100]%Q [0; 0; 1]%Q [0; 1]%Q)) ∧
    assemble Examples.fields [Integral e (dx Examples.sim)] = Some r ∧
    (r == integrate Poly1D.model (dx Examples.sim)
            (Spec.momentum_integrand (M:=Poly1D.model)
               [1; 1]%Q [100]%Q [0; 0; 1]%Q [0; 1]%Q))%Q.
Proof.
  apply (momentum_weak_form Poly1D.model Examples.fields Examples.sim
           (Coefficient "p") (Coefficient "u") (Argument "u"));
    reflexivity.
Defined.

(** C4: for a state providing the field [u] (vector) and the pressure
    test function [psi_p] (scalar), [mass()] is the single integral over
    [dx] of [psi_p * div u]; a state that has the same [u], the same
    [psi_p] and the same measure gives the same form, whatever its
    pressure field, its Reynolds number and its other attributes are. *)
Theorem mass_weak_form (M : Model) (ρ : env M) (self : Simulation)
    (e_u e_psi : expr) (u : vector M) (psi_p : scalar M) :
  solution_fields self !! "u" = Some e_u →
  test_functions self !! "p" = Some e_psi →
  eval ρ e_u = Some (VV u) →
  eval ρ e_psi = Some (VS psi_p) →
  (∃ (e : expr) (r : Q),
     mass self = Ok [Integral e (dx self)] ∧
     eval ρ e = Some (VS (Spec.mass_integrand psi_p u)) ∧
     assemble ρ [Integral e (dx self)] = Some r ∧
     (r == integrate M (dx self) (Spec.mass_integrand psi_p u))%Q) ∧
  (∀ self' : Simulation,
     solution_fields self' !! "u" = Some e_u →
     test_functions self' !! "p" = Some e_psi →
     dx self' = dx self →
     mass self' = mass self).
Proof.
  intros Hu Hpsi Eu Epsi. split.
  - unfold mass.
    rewrite (getitem_Some _ _ _ Hu), (getitem_Some _ _ _ Hpsi).
    cbn [rbind]. unfold times_measure.
    assert (He : eval ρ (Product e_psi (Div e_u))
                 = Some (VS (Spec.mass_integrand psi_p u))).
    { cbn [eval]. rewrite Eu, Epsi. reflexivity. }
    destruct (assemble_times_measure ρ _ (dx self) _ He) as (r & Hr & Hq).
    eexists _, r. repeat split; eassumption.
  - intros self' Hu' Hpsi' Hdx. unfold mass.
    rewrite (getitem_Some _ _ _ Hu), (getitem_Some _ _ _ Hpsi),
      (getitem_Some _ _ _ Hu'), (getitem_Some _ _ _ Hpsi'), Hdx.
    reflexivity.
Qed.

Lemma mass_weak_form_witness :
  (∃ (e : expr) (r : Q),
     mass Examples.sim = Ok [Integral e (dx Examples.sim)] ∧
     eval Examples.fields e
       = Some (VS (M:=Poly1D.model)
                 (Spec.mass_integrand (M:=Poly1D.model) [1]%Q [0; 0; 1]%Q)) ∧
     assemble Examples.fields [Integral e (dx Examples.sim)] = Some r ∧
     (r == integrate Poly1D.model (dx Examples.sim)
             (Spec.mass_integrand (M:=Poly1D.model) [1]%Q [0; 0; 1]%Q))%Q) ∧
  mass Examples.other_pressure_and_reynolds = mass Examples.sim.
Proof.
  destruct (mass_weak_form Poly1D.model Examples.fields Examples.sim
              (Coefficient "u") (Argument "p") [0; 0; 1]%Q [1]%Q
              eq_refl eq_refl eq_refl eq_refl) as [H1 H2].
  split; [exact H1|].
  apply H2; reflexivity.
Defined.

(** C5: [weak_form_residual()] is the form [mass() + momentum()]; its
    value is the value of the mass residual plus the value of the
    momentum residual. *)
Theorem weak_form_residual_sum (self : Simulation) (F G : form) :
  mass self = Ok F →
  momentum self = Ok G →
  weak_form_residual self = Ok (form_add F G) ∧
  ∀ (M : Model) (ρ : env M) (a b : Q),
    assemble ρ F = Some a → assemble ρ G = Some b →
    ∃ c : Q, assemble ρ (form_add F G) = Some c ∧ (c == a + b)%Q.
Proof.
  intros HF HG. split.
  - unfold weak_form_residual. rewrite HF, HG. reflexivity.
  - intros M ρ a b. apply assemble_form_add.
Qed.

Lemma weak_form_residual_sum_witness :
  weak_form_residual Examples.sim
    = Ok (form_add (Examples.form_of (mass Examples.sim))
                   (Examples.form_of (momentum Examples.sim))) ∧
  ∃ c : Q,
    assemble Examples.fields
      (form_add (Examples.form_of (mass Examples.sim))
                (Examples.form_of (momentum Examples.sim))) = Some c ∧
    (c == 1 + (-27 # 25))%Q.
Proof.
  destruct (weak_form_residual_sum Examples.sim
              (Examples.form_of (mass Examples.sim))
              (Examples.form_of (momentum Examples.sim))
              eq_refl eq_refl) as [H1 H2].
  split; [exact H1|].
  apply (H2 Poly1D.model Examples.fields); reflexivity.
Defined.

(** C6: [strong_residual(sim, (p, u))] returns the pair [(r_p, r_u)] where
    [r_p] means [div u] and [r_u] means
    [grad u u + grad p - (2/Re) * div (sym grad u)], for a scalar [p], a
    vector [u] and the Reynolds number [Re] of [sim]. *)
Theorem strong_residual_form (M : Model) (ρ : env M) (sim : Simulation)
    (e_p e_u : expr) (p Re : scalar M) (u : vector M) :
  eval ρ e_p = Some (VS p) →
  eval ρ e_u = Some (VV u) →
  eval ρ (reynolds_number sim) = Some (VS Re) →
  ∃ r_p r_u : expr,
    strong_residual sim (e_p, e_u) = (r_p, r_u) ∧
    r_p = Div e_u ∧
    eval ρ r_p = Some (VS (Spec.strong_r_p u)) ∧
    eval ρ r_u = Some (VV (Spec.strong_r_u p Re u)).
Proof.
  intros Ep Eu ERe. unfold strong_residual.
  eexists _, _. split; [reflexivity|]. split; [reflexivity|].
  cbn [eval]. rewrite Ep, Eu, ERe. split; reflexivity.
Qed.

Lemma strong_residual_form_witness :
  ∃ r_p r_u : expr,
    strong_residual Examples.sim (Coefficient "p", Coefficient "u") = (r_p, r_u) ∧
    r_p = Div (Coefficient "u") ∧
    eval Examples.fields r_p
      = Some (VS (M:=Poly1D.model) (Spec.strong_r_p (M:=Poly1D.model) [0; 0; 1]%Q)) ∧
    eval Examples.fields r_u
      = Some (VV (M:=Poly1D.model)
                (Spec.strong_r_u (M:=Poly1D.model) [1; 1]%Q [100]%Q [0; 0; 1]%Q)).
Proof.
  apply (strong_residual_form Poly1D.model Examples.fields Examples.sim);
    reflexivity.
Defined.

(** ** Null space *)

Lemma in_span_constant_only (x : list Q) :
  in_span (MkBasis [] true) x ↔ is_constant x.
Proof.
  unfold in_span, is_constant. cbn [vecs constant]. split.
  - intros (cs & c & _ & H). exists c. intros i xi Hx.
    rewrite (H i xi Hx). destruct cs; cbn [combination_at]; ring.
  - intros (c & H). exists [], c. split; [reflexivity|].
    intros i xi Hx. rewrite (H i xi Hx). cbn [combination_at]. ring.
Qed.

(** C3: [nullspace()] hands the solver, for the mixed solution space, a
    pair of entries: first a basis without vectors and with the constant
    flag set, which has one spanning element and spans exactly the
    constant functions; second the subspace stored under ["u"], passed as
    it is. *)
Theorem nullspace_pressure_constants (self : Simulation) (V_u : IndexedSpace) :
  solution_subspaces self !! "u" = Some V_u →
  ∃ b : VectorSpaceBasis,
    nullspace self = Ok (MkMixedBasis (solution_space self) [Basis b; Subspace V_u]) ∧
    vecs b = [] ∧
    constant b = true ∧
    basis_size b = 1%nat ∧
    (∀ x : list Q, in_span b x ↔ is_constant x).
Proof.
  intros Hu. exists (MkBasis [] true). repeat split.
  - unfold nullspace. rewrite (getitem_Some _ _ _ Hu). reflexivity.
  - apply in_span_constant_only.
  - apply in_span_constant_only.
Qed.

Lemma nullspace_pressure_constants_witness :
  ∃ b : VectorSpaceBasis,
    nullspace Examples.sim
      = Ok (MkMixedBasis Examples.W [Basis b; Subspace (MkIndexedSpace Examples.W 1)]) ∧
    vecs b = [] ∧
    constant b = true ∧
    basis_size b = 1%nat ∧
    (∀ x : list Q, in_span b x ↔ is_constant x).
Proof.
  apply (nullspace_pressure_constants Examples.sim (MkIndexedSpace Examples.W 1)).
  reflexivity.
Defined.

(** Without the entry ["u"] there is no null space to hand over. *)
Lemma nullspace_KeyError (self : Simulation) :
  solution_subspaces self !! "u" = None →
  nullspace self = Raise (KeyError "u").
Proof.
  intros Hu. unfold nullspace. by rewrite (getitem_None _ _ Hu).
Qed.

(** ** Construction *)

(** The run of [__init__] when no solution is supplied and the keyword
    ["mesh"] holds the mesh [m], for the pressure degree [d]. *)
Lemma init_without_solution (args : list pyobj) (Re : Q) (deg : option Z)
    (kwargs : gmap string pyobj) (m : Mesh) :
  kwargs !! "solution" = None →
  kwargs !! "mesh" = Some (ObjMesh m) →
  let d := default 1%Z deg in
  let e_p := FiniteElement "P" (ufl_cell m) d in
  let e_u := VectorElement "P" (ufl_cell m) (d + 1) in
  let V := MkFunctionSpace m (MixedElement [e_p; e_u]) in
  __init__ args Re deg kwargs
  = ([NewElement e_p; NewElement e_u; NewElement (MixedElement [e_p; e_u]);
      NewFunctionSpace V; NewFunction (MkFunction V);
      NewConstant (Constant Re); SetAttr "reynolds_number" (Constant Re);
      BaseInit args (<["solution" := ObjFunction (MkFunction V)]> (delete "mesh" kwargs))],
     Ok ()).
Proof.
  intros Hs Hm. unfold __init__. rewrite Hs.
  rewrite (getitem_Some _ _ _ Hm). reflexivity.
Qed.

(** C7: without a supplied solution, for the pressure degree [d] and the
    mesh [m], the solution handed to the base class is a function on the
    space over [m] of the mixed element made of the scalar ["P"] element
    of degree [d] and the vector ["P"] element of degree [d + 1], both on
    the cell of [m]. *)
Theorem init_taylor_hood (args : list pyobj) (Re : Q) (d : Z)
    (kwargs : gmap string pyobj) (m : Mesh) :
  kwargs !! "solution" = None →
  kwargs !! "mesh" = Some (ObjMesh m) →
  ∃ (built : list event) (kwargs' : gmap string pyobj),
    __init__ args Re (Some d) kwargs = (built ++ [BaseInit args kwargs'], Ok ()) ∧
    kwargs' !! "solution"
      = Some (ObjFunction (MkFunction (MkFunctionSpace m
                (MixedElement [FiniteElement "P" (ufl_cell m) d;
                               VectorElement "P" (ufl_cell m) (d + 1)])))) ∧
    NewFunctionSpace (MkFunctionSpace m
        (MixedElement [FiniteElement "P" (ufl_cell m) d;
                       VectorElement "P" (ufl_cell m) (d + 1)])) ∈ built.
Proof.
  intros Hs Hm.
  rewrite (init_without_solution args Re (Some d) kwargs m Hs Hm).
  cbn [default].
  eexists [_; _; _; _; _; _; _], _.
  split; [reflexivity|]. split.
  - apply lookup_insert_eq.
  - set_solver.
Qed.

Lemma init_taylor_hood_witness :
  ∃ (built : list event) (kwargs' : gmap string pyobj),
    __init__ [] 100 (Some 2%Z) {[ "mesh" := ObjMesh Examples.unit_square ]}
      = (built ++ [BaseInit [] kwargs'], Ok ()) ∧
    kwargs' !! "solution"
      = Some (ObjFunction (MkFunction (MkFunctionSpace Examples.unit_square
                (MixedElement [FiniteElement "P" triangle 2;
                               VectorElement "P" triangle 3])))) ∧
    NewFunctionSpace (MkFunctionSpace Examples.unit_square
        (MixedElement [FiniteElement "P" triangle 2;
                       VectorElement "P" triangle 3])) ∈ built.
Proof.
  apply (init_taylor_hood [] 100 2 {[ "mesh" := ObjMesh Examples.unit_square ]}
           Examples.unit_square); reflexivity.
Defined.

(** C8: when the degree is omitted and no solution is supplied, the
    mixed element has pressure degree 1 and velocity degree 2. *)
Theorem init_default_degree (args : list pyobj) (Re : Q)
    (kwargs : gmap string pyobj) (m : Mesh) :
  kwargs !! "solution" = None →
  kwargs !! "mesh" = Some (ObjMesh m) →
  ∃ (built : list event) (kwargs' : gmap string pyobj),
    __init__ args Re None kwargs = (built ++ [BaseInit args kwargs'], Ok ()) ∧
    kwargs' !! "solution"
      = Some (ObjFunction (MkFunction (MkFunctionSpace m
                (MixedElement [FiniteElement "P" (ufl_cell m) 1;
                               VectorElement "P" (ufl_cell m) 2])))) ∧
    NewElement (MixedElement [FiniteElement "P" (ufl_cell m) 1;
                              VectorElement "P" (ufl_cell m) 2]) ∈ built.
Proof.
  intros Hs Hm.
  rewrite (init_without_solution args Re None kwargs m Hs Hm).
  cbn [default]. change (1 + 1)%Z with 2%Z.
  eexists [_; _; _; _; _; _; _], _.
  split; [reflexivity|]. split.
  - apply lookup_insert_eq.
  - set_solver.
Qed.

Lemma init_default_degree_witness :
  ∃ (built : list event) (kwargs' : gmap string pyobj),
    __init__ [] 100 None {[ "mesh" := ObjMesh Examples.unit_square ]}
      = (built ++ [BaseInit [] kwargs'], Ok ()) ∧
    kwargs' !! "solution"
      = Some (ObjFunction (MkFunction (MkFunctionSpace Examples.unit_square
                (MixedElement [FiniteElement "P" triangle 1;
                               VectorElement "P" triangle 2])))) ∧
    NewElement (MixedElement [FiniteElement "P" triangle 1;
                              VectorElement "P" triangle 2]) ∈ built.
Proof.
  apply (init_default_degree [] 100 {[ "mesh" := ObjMesh Examples.unit_square ]}
           Examples.unit_square); reflexivity.
Defined.

(** C10: with a ["solution"] keyword, [__init__] builds no element, space
    or function, does not look at ["mesh"], and passes the keyword
    arguments on unchanged.  Without it, a missing ["mesh"] raises
    [KeyError] before anything else happens; a mesh under ["mesh"] is
    taken out of the keyword arguments and the newly built function is put
    under ["solution"] before the base class is initialized. *)
Theorem init_keyword_arguments (args : list pyobj) (Re : Q) (deg : option Z)
    (kwargs : gmap string pyobj) :
  match kwargs !! "solution", kwargs !! "mesh" with
  | Some _, _ =>
      __init__ args Re deg kwargs
      = ([NewConstant (Constant Re); SetAttr "reynolds_number" (Constant Re);
          BaseInit args kwargs], Ok ()) ∧
      __init__ args Re deg (delete "mesh" kwargs)
      = ([NewConstant (Constant Re); SetAttr "reynolds_number" (Constant Re);
          BaseInit args (delete "mesh" kwargs)], Ok ())
  | None, None =>
      __init__ args Re deg kwargs = ([], Raise (KeyError "mesh"))
  | None, Some (ObjMesh m) =>
      ∃ (built : list event) (f : Function),
        __init__ args Re deg kwargs
        = (built ++ [NewConstant (Constant Re);
                     SetAttr "reynolds_number" (Constant Re);
                     BaseInit args (<["solution" := ObjFunction f]> (delete "mesh" kwargs))],
           Ok ()) ∧
        forallb constructs_space built = true ∧
        NewFunction f ∈ built ∧
        fs_mesh (function_space f) = m ∧
        (<["solution" := ObjFunction f]> (delete "mesh" kwargs)) !! "mesh" = None
  | None, Some _ =>
      __init__ args Re deg kwargs = ([], Raise (AttributeError "ufl_cell"))
  end.
Proof.
  destruct (kwargs !! "solution") as [o|] eqn:Hs.
  - split.
    + unfold __init__. rewrite Hs. reflexivity.
    + unfold __init__. rewrite lookup_delete_ne by done. rewrite Hs. reflexivity.
  - destruct (kwargs !! "mesh") as [[m|f|n]|] eqn:Hm.
    + rewrite (init_without_solution args Re deg kwargs m Hs Hm).
      eexists [_; _; _; _; _], _. split; [reflexivity|].
      split; [reflexivity|]. split; [set_solver|]. split; [reflexivity|].
      rewrite lookup_insert_ne by done. apply lookup_delete_eq.
    + unfold __init__. rewrite Hs, (getitem_Some _ _ _ Hm). reflexivity.
    + unfold __init__. rewrite Hs, (getitem_Some _ _ _ Hm). reflexivity.
    + unfold __init__. rewrite Hs, (getitem_None _ _ Hm). reflexivity.
Qed.

(** ** Solving *)

Lemma weighted_sum_minus_number (w x : list Q) (c : Q) :
  length w = length x →
  (weighted_sum w (map (λ xi, xi - c) x) == weighted_sum w x - c * Qsum w)%Q.
Proof.
  revert x. induction w as [|wi w IH]; intros [|xi x] Hlen;
    try discriminate; cbn [weighted_sum map Qsum fold_right].
  - ring.
  - injection Hlen as Hlen. fold (Qsum w). rewrite (IH x Hlen). ring.
Qed.

(** The integral of [p - c]. *)
Lemma assemble_dx_assign_minus_number (p : fn_data) (c : Q) :
  length (basis_integrals p) = length (dofs p) →
  (assemble_dx (assign p (minus_number p c))
   == assemble_dx p - c * domain_measure p)%Q.
Proof.
  intros Hlen. unfold assemble_dx, assign, minus_number, domain_measure.
  cbn [basis_integrals dofs]. by apply weighted_sum_minus_number.
Qed.

Section SolveFacts.
Variable base_solve : method Function.

(** [solve] returns whenever the base solver does and there is a
    pressure sub-function. *)
Lemma solve_returns (s s1 : Simulation) (sol : Function) (p : loc) :
  base_solve s = (s1, Ok sol) →
  post_processing_solution_fields s1 !! "p" = Some p →
  solve base_solve s = (solved_state s1 sol p, Ok sol).
Proof.
  intros Hb Hp. unfold solve, mbind. rewrite Hb.
  cbn [set_solution print try_read read write
       post_processing_solution_fields store solution].
  rewrite (getitem_Some _ _ _ Hp). reflexivity.
Qed.

Lemma solve_inv (s s2 : Simulation) (ret : Function) :
  solve base_solve s = (s2, Ok ret) →
  ∃ (s1 : Simulation) (p : loc),
    base_solve s = (s1, Ok ret) ∧
    post_processing_solution_fields s1 !! "p" = Some p ∧
    s2 = solved_state s1 ret p.
Proof.
  intros H.
  destruct (base_solve s) as [s1 [sol|e]] eqn:Hb.
  - destruct (post_processing_solution_fields s1 !! "p") as [p|] eqn:Hp.
    + rewrite (solve_returns s s1 sol p Hb Hp) in H.
      injection H as <- <-. by exists s1, p.
    + unfold solve, mbind in H. rewrite Hb in H.
      cbn [set_solution print try_read post_processing_solution_fields] in H.
      rewrite (getitem_None _ _ Hp) in H. discriminate.
  - unfold solve, mbind in H. rewrite Hb in H. discriminate.
Qed.

(** After [solve] the integral of the pressure is its integral after the
    base solve times one minus the measure of the domain. *)
Lemma solve_pressure_integral (s s2 : Simulation) (ret : Function) :
  solve base_solve s = (s2, Ok ret) →
  ∃ (s1 : Simulation) (p : loc),
    base_solve s = (s1, Ok ret) ∧
    post_processing_solution_fields s2 !! "p" = Some p ∧
    (length (basis_integrals (store s1 p)) = length (dofs (store s1 p)) →
     (assemble_dx (store s2 p)
      == assemble_dx (store s1 p) * (1 - domain_measure (store s1 p)))%Q).
Proof.
  intros H. destruct (solve_inv s s2 ret H) as (s1 & p & Hb & Hp & ->).
  exists s1, p. split; [exact Hb|]. split; [exact Hp|].
  intros Hlen. cbn [solved_state store]. rewrite decide_True by done.
  rewrite (assemble_dx_assign_minus_number _ _ Hlen). ring.
Qed.

(** On a domain of measure one the pressure has integral zero after
    [solve]. *)
Lemma solve_zero_mean_on_unit_measure (s s2 : Simulation) (ret : Function) :
  solve base_solve s = (s2, Ok ret) →
  ∃ (s1 : Simulation) (p : loc),
    base_solve s = (s1, Ok ret) ∧
    post_processing_solution_fields s2 !! "p" = Some p ∧
    (length (basis_integrals (store s1 p)) = length (dofs (store s1 p)) →
     (domain_measure (store s1 p) == 1)%Q →
     (assemble_dx (store s2 p) == 0)%Q).
Proof.
  intros H. destruct (solve_pressure_integral s s2 ret H) as (s1 & p & Hb & Hp & HI).
  exists s1, p. split; [exact Hb|]. split; [exact Hp|].
  intros Hlen Hm. rewrite (HI Hlen), Hm. ring.
Qed.

End SolveFacts.

(** C2: on an interval of length 2 whose pressure is 1 everywhere after
    the base solve, [solve()] returns normally and has subtracted the
    integral 2 of the pressure, not its mean 1: the pressure is -1
    everywhere, and its mean over the domain is -1, not 0. *)
Theorem solve_mean_pressure_on_domain_of_measure_two :
  let s := Examples.sim_on 2 1 in
  let s2 := fst (solve Examples.solved s) in
  post_processing_solution_fields s2 !! "p" = Some 0%nat ∧
  snd (solve Examples.solved s) = Ok (solution s) ∧
  (domain_measure (store s 0%nat) == 2)%Q ∧
  (domain_mean (store s 0%nat) == 1)%Q ∧
  Forall (λ v, (v == -1)%Q) (dofs (store s2 0%nat)) ∧
  (domain_mean (store s2 0%nat) == -1)%Q ∧
  ¬ (domain_mean (store s2 0%nat) == 0)%Q.
Proof.
  cbn zeta.
  rewrite (solve_returns Examples.solved (Examples.sim_on 2 1)
             (Examples.sim_on 2 1) (solution (Examples.sim_on 2 1)) 0%nat
             eq_refl eq_refl).
  cbn [fst snd]. repeat split.
  - repeat constructor.
  - vm_compute. discriminate.
Qed.

(** C9: when [solve()] returns, the state differs from the one the base
    solve left only in the nodal values of the pressure sub-function (and
    the printed lines): the storage at every other location, so that of
    the velocity and of every other component, is the same, and so are the
    pressure's basis integrals and number of nodes, the table of
    sub-functions and the other attributes; the returned function is the
    one the base solve returned. *)
Theorem solve_frame (base_solve : method Function) (s s2 : Simulation)
    (ret : Function) :
  solve base_solve s = (s2, Ok ret) →
  ∃ (s1 : Simulation) (p : loc),
    base_solve s = (s1, Ok ret) ∧
    post_processing_solution_fields s1 !! "p" = Some p ∧
    (∀ l : loc, l ≠ p → store s2 l = store s1 l) ∧
    (∀ (name : string) (l : loc),
       post_processing_solution_fields s2 !! name = Some l →
       l ≠ p → store s2 l = store s1 l) ∧
    basis_integrals (store s2 p) = basis_integrals (store s1 p) ∧
    length (dofs (store s2 p)) = length (dofs (store s1 p)) ∧
    post_processing_solution_fields s2 = post_processing_solution_fields s1 ∧
    solution s2 = ret ∧
    solution_space s2 = solution_space s1 ∧
    solution_subspaces s2 = solution_subspaces s1 ∧
    solution_fields s2 = solution_fields s1 ∧
    test_functions s2 = test_functions s1 ∧
    reynolds_number s2 = reynolds_number s1 ∧
    dx s2 = dx s1.
Proof.
  intros H. destruct (solve_inv base_solve s s2 ret H) as (s1 & p & Hb & Hp & ->).
  exists s1, p. split; [exact Hb|]. split; [exact Hp|].
  assert (Hframe : ∀ l : loc, l ≠ p → store (solved_state s1 ret p) l = store s1 l).
  { intros l Hl. cbn [solved_state store]. by rewrite decide_False. }
  split; [exact Hframe|].
  split; [intros name l _; apply Hframe|].
  cbn [solved_state store]. rewrite decide_True by done.
  cbn [assign basis_integrals dofs]. unfold minus_number.
  rewrite length_map. repeat split; reflexivity.
Qed.

Lemma solve_frame_witness :
  ∃ (s1 : Simulation) (p : loc),
    Examples.solved Examples.sim = (s1, Ok (solution Examples.sim)) ∧
    post_processing_solution_fields s1 !! "p" = Some p ∧
    (∀ l : loc, l ≠ p →
       store (fst (solve Examples.solved Examples.sim)) l = store s1 l) ∧
    (∀ (name : string) (l : loc),
       post_processing_solution_fields (fst (solve Examples.solved Examples.sim)) !! name
         = Some l →
       l ≠ p → store (fst (solve Examples.solved Examples.sim)) l = store s1 l) ∧
    basis_integrals (store (fst (solve Examples.solved Examples.sim)) p)
      = basis_integrals (store s1 p) ∧
    length (dofs (store (fst (solve Examples.solved Examples.sim)) p))
      = length (dofs (store s1 p)) ∧
    post_processing_solution_fields (fst (solve Examples.solved Examples.sim))
      = post_processing_solution_fields s1 ∧
    solution (fst (solve Examples.solved Examples.sim)) = solution Examples.sim ∧
    solution_space (fst (solve Examples.solved Examples.sim)) = solution_space s1 ∧
    solution_subspaces (fst (solve Examples.solved Examples.sim)) = solution_subspaces s1 ∧
    solution_fields (fst (solve Examples.solved Examples.sim)) = solution_fields s1 ∧
    test_functions (fst (solve Examples.solved Examples.sim)) = test_functions s1 ∧
    reynolds_number (fst (solve Examples.solved Examples.sim)) = reynolds_number s1 ∧
    dx (fst (solve Examples.solved Examples.sim)) = dx s1.
Proof.
  apply (solve_frame Examples.solved Examples.sim
           (fst (solve Examples.solved Examples.sim)) (solution Examples.sim)).
  reflexivity.
Defined.

(** ** The examples, run *)

(** With p = 1 + x, u = x^2, psi_p = 1, psi_u = x on the unit interval and
    Re = 100: the mass residual is the integral of 2x, and the momentum
    residual is 2/5 - 3/2 + 1/50. *)
Example mass_example :
  assemble Examples.fields (Examples.form_of (mass Examples.sim)) = Some 1%Q.
Proof. reflexivity. Qed.

Example momentum_example :
  assemble Examples.fields (Examples.form_of (momentum Examples.sim))
  = Some (-27 # 25)%Q.
Proof. reflexivity. Qed.

Example weak_form_residual_example :
  assemble Examples.fields (Examples.form_of (weak_form_residual Examples.sim))
  = Some (-2 # 25)%Q.
Proof. reflexivity. Qed.

(** A state without the field ["u"] makes the residuals raise. *)
Example mass_KeyError_example :
  mass (MkSimulation (Constant 1) (solution Examples.sim)
          (solution_space Examples.sim) ∅ ∅ ∅ ∅ (Measure None)
          (store Examples.sim) [])
  = Raise (KeyError "u").
Proof. reflexivity. Qed.

(** On the unit interval a pressure of 1 everywhere is brought to 0. *)
Example solve_unit_interval_example :
  Forall (λ v, (v == 0)%Q)
    (dofs (store (fst (solve Examples.solved (Examples.sim_on 1 1))) 0%nat)) ∧
  dofs (store (fst (solve Examples.solved (Examples.sim_on 1 1))) 1%nat)
  = [0; 3]%Q ∧
  stdout (fst (solve Examples.solved (Examples.sim_on 1 1)))
  = ["Subtracting mean pressure"; "Done subtracting mean pressure"].
Proof. repeat split; repeat constructor. Qed.

(** A failing base solve is passed on, and nothing is printed. *)
Example solve_base_failure_example :
  solve (λ s, (s, Raise (SolverError "diverged"))) Examples.sim
  = (Examples.sim, Raise (SolverError "diverged")).
Proof. reflexivity. Qed.

Example init_missing_mesh_example :
  __init__ [] 100 (Some 2%Z) ∅ = ([], Raise (KeyError "mesh")).
Proof. reflexivity. Qed.

Example init_not_a_mesh_example :
  __init__ [] 100 None {[ "mesh" := ObjOther 3 ]}
  = ([], Raise (AttributeError "ufl_cell")).
Proof. reflexivity. Qed.

(** * Further properties *)

(** ** Residuals: missing entries, composition *)




(** X3: a form returned by [weak_form_residual()] has two integrals, the
    one of [mass()] followed by the one of [momentum()], both over the
    measure [dx] of the simulation. *)
Theorem weak_form_residual_integrals (self : Simulation) (F : form) :
  weak_form_residual self = Ok F →
  ∃ i1 i2 : integral,
    F = [i1; i2] ∧ mass self = Ok [i1] ∧ momentum self = Ok [i2] ∧
    integral_measure i1 = dx self ∧ integral_measure i2 = dx self.
Proof.
  unfold weak_form_residual, mass, momentum, getitem.
  destruct (solution_fields self !! "u") as [u|]; [|discriminate].
  destruct (test_functions self !! "p") as [psi_p|]; [|discriminate].
  destruct (solution_fields self !! "p") as [p|]; [|discriminate].
  destruct (test_functions self !! "u") as [psi_u|]; [|discriminate].
  cbn [rbind]. intros H. injection H as <-.
  eexists _, _. repeat split.
Qed.

Lemma weak_form_residual_integrals_witness :
  ∃ i1 i2 : integral,
    Examples.form_of (weak_form_residual Examples.sim) = [i1; i2] ∧
    mass Examples.sim = Ok [i1] ∧ momentum Examples.sim = Ok [i2] ∧
    integral_measure i1 = dx Examples.sim ∧ integral_measure i2 = dx Examples.sim.
Proof.
  apply (weak_form_residual_integrals Examples.sim
           (Examples.form_of (weak_form_residual Examples.sim))).
  reflexivity.
Defined.

(** X4: for scalar [p], [Re], [psi_p] and vector [u], [psi_u], the value
    of [weak_form_residual()] is the integral of [psi_p * div u] plus the
    integral of
    [psi_u . (grad u u) - div psi_u * p + (2/Re) * (sym grad psi_u : sym grad u)]. *)
Theorem weak_form_residual_value (M : Model) (ρ : env M) (self : Simulation)
    (e_p e_u e_psi_p e_psi_u : expr) (p Re psi_p : scalar M) (u psi_u : vector M) :
  solution_fields self !! "p" = Some e_p →
  solution_fields self !! "u" = Some e_u →
  test_functions self !! "p" = Some e_psi_p →
  test_functions self !! "u" = Some e_psi_u →
  eval ρ e_p = Some (VS p) →
  eval ρ e_u = Some (VV u) →
  eval ρ e_psi_p = Some (VS psi_p) →
  eval ρ e_psi_u = Some (VV psi_u) →
  eval ρ (reynolds_number self) = Some (VS Re) →
  ∃ (F : form) (r : Q),
    weak_form_residual self = Ok F ∧
    assemble ρ F = Some r ∧
    (r == integrate M (dx self) (Spec.mass_integrand psi_p u)
          + integrate M (dx self) (Spec.momentum_integrand p Re u psi_u))%Q.
Proof.
  intros Hp Hu Hpp Hpu Ep Eu Epp Epu ERe.
  unfold weak_form_residual, mass, momentum.
  rewrite (getitem_Some _ _ _ Hp), (getitem_Some _ _ _ Hu),
    (getitem_Some _ _ _ Hpp), (getitem_Some _ _ _ Hpu).
  cbn [rbind].
  match goal with
  | |- context [form_add (times_measure ?a _) (times_measure ?b _)] =>
      set (e1 := a); set (e2 := b)
  end.
  assert (H1 : eval ρ e1 = Some (VS (Spec.mass_integrand psi_p u))).
  { subst e1. cbn [eval]. rewrite Eu, Epp. reflexivity. }
  assert (H2 : eval ρ e2 = Some (VS (Spec.momentum_integrand p Re u psi_u))).
  { subst e2. cbn [eval]. rewrite Ep, Eu, Epu, ERe. reflexivity. }
  destruct (assemble_times_measure ρ e1 (dx self) _ H1) as (a & Ha & Hqa).
  destruct (assemble_times_measure ρ e2 (dx self) _ H2) as (b & Hb & Hqb).
  destruct (assemble_form_add ρ _ _ a b Ha Hb) as (c & Hc & Hqc).
  exists (form_add (times_measure e1 (dx self)) (times_measure e2 (dx self))), c.
  split; [reflexivity|]. split; [exact Hc|].
  rewrite Hqc, Hqa, Hqb. reflexivity.
Qed.

Lemma weak_form_residual_value_witness :
  ∃ (F : form) (r : Q),
    weak_form_residual Examples.sim = Ok F ∧
    assemble Examples.fields F = Some r ∧
    (r == integrate Poly1D.model (dx Examples.sim)
            (Spec.mass_integrand (M:=Poly1D.model) [1]%Q [0; 0; 1]%Q)
          + integrate Poly1D.model (dx Examples.sim)
              (Spec.momentum_integrand (M:=Poly1D.model)
                 [1; 1]%Q [100]%Q [0; 0; 1]%Q [0; 1]%Q))%Q.
Proof.
  apply (weak_form_residual_value Poly1D.model Examples.fields Examples.sim
           (Coefficient "p") (Coefficient "u") (Argument "p") (Argument "u"));
    reflexivity.
Defined.

(** X5: the mass residual is the pressure test function times the first
    component of the strong residual of the fields: for the fields [p],
    [u] and the test function [psi_p] of the simulation, [mass()] is the
    integral over [dx] of [psi_p * r_p], where
    [(r_p, r_u) = strong_residual(sim, (p, u))]. *)
Theorem mass_tests_strong_residual (self : Simulation) (e_p e_u e_psi : expr) :
  solution_fields self !! "u" = Some e_u →
  test_functions self !! "p" = Some e_psi →
  mass self
  = Ok (times_measure (Product e_psi (fst (strong_residual self (e_p, e_u))))
          (dx self)) ∧
  ∀ (M : Model) (ρ : env M) (psi_p r_p : scalar M),
    eval ρ e_psi = Some (VS psi_p) →
    eval ρ (fst (strong_residual self (e_p, e_u))) = Some (VS r_p) →
    ∃ r : Q, assemble ρ (Examples.form_of (mass self)) = Some r ∧
             (r == integrate M (dx self) (smul M psi_p r_p))%Q.
Proof.
  intros Hu Hpsi.
  assert (Hm : mass self
               = Ok (times_measure
                       (Product e_psi (fst (strong_residual self (e_p, e_u))))
                       (dx self))).
  { unfold mass. rewrite (getitem_Some _ _ _ Hu), (getitem_Some _ _ _ Hpsi).
    reflexivity. }
  split; [exact Hm|].
  intros M ρ psi_p r_p Epsi Er. rewrite Hm. cbn [Examples.form_of].
  apply assemble_times_measure. cbn [eval]. rewrite Epsi, Er. reflexivity.
Qed.

Lemma mass_tests_strong_residual_witness :
  mass Examples.sim
  = Ok (times_measure
          (Product (Argument "p")
             (fst (strong_residual Examples.sim (Coefficient "p", Coefficient "u"))))
          (dx Examples.sim)) ∧
  ∃ r : Q, assemble Examples.fields (Examples.form_of (mass Examples.sim)) = Some r ∧
           (r == integrate Poly1D.model (dx Examples.sim)
                   (smul Poly1D.model [1]%Q (Poly1D.pderiv [0; 0; 1]%Q)))%Q.
Proof.
  destruct (mass_tests_strong_residual Examples.sim
              (Coefficient "p") (Coefficient "u") (Argument "p")
              eq_refl eq_refl) as [H1 H2].
  split; [exact H1|].
  apply (H2 Poly1D.model Examples.fields); reflexivity.
Defined.

(** ** Construction: success, failure, what the base class receives *)

Lemma init_with_solution (args : list pyobj) (Re : Q) (deg : option Z)
    (kwargs : gmap string pyobj) :
  is_Some (kwargs !! "solution") →
  __init__ args Re deg kwargs
  = ([NewConstant (Constant Re); SetAttr "reynolds_number" (Constant Re);
      BaseInit args kwargs], Ok ()).
Proof. intros [o Hs]. unfold __init__. rewrite Hs. reflexivity. Qed.

Lemma init_missing_mesh (args : list pyobj) (Re : Q) (deg : option Z)
    (kwargs : gmap string pyobj) :
  kwargs !! "solution" = None →
  kwargs !! "mesh" = None →
  __init__ args Re deg kwargs = ([], Raise (KeyError "mesh")).
Proof.
  intros Hs Hm. unfold __init__. rewrite Hs, (getitem_None _ _ Hm). reflexivity.
Qed.

Lemma init_not_a_mesh (args : list pyobj) (Re : Q) (deg : option Z)
    (kwargs : gmap string pyobj) (o : pyobj) :
  kwargs !! "solution" = None →
  kwargs !! "mesh" = Some o →
  (∀ m : Mesh, o ≠ ObjMesh m) →
  __init__ args Re deg kwargs = ([], Raise (AttributeError "ufl_cell")).
Proof.
  intros Hs Hm Ho. unfold __init__. rewrite Hs, (getitem_Some _ _ _ Hm).
  destruct o as [m| |]; [by destruct (Ho m)| |]; reflexivity.
Qed.

(** The runs of [__init__], by the keywords ["solution"] and ["mesh"]. *)
Ltac init_cases args Re deg kwargs :=
  let Hs := fresh "Hs" in
  let Hm := fresh "Hm" in
  destruct (kwargs !! "solution") as [?|] eqn:Hs;
  [ rewrite (init_with_solution args Re deg kwargs (mk_is_Some _ _ Hs))
  | destruct (kwargs !! "mesh") as [[?| |]|] eqn:Hm;
    [ rewrite (init_without_solution args Re deg kwargs _ Hs Hm)
    | rewrite (init_not_a_mesh args Re deg kwargs _ Hs Hm) by discriminate
    | rewrite (init_not_a_mesh args Re deg kwargs _ Hs Hm) by discriminate
    | rewrite (init_missing_mesh args Re deg kwargs Hs Hm) ] ].


(** X7: when [__init__] succeeds, the base class is initialized once, as
    the last step, with the positional arguments as given and keyword
    arguments that hold a solution; and the only attribute set is
    [reynolds_number], to the constant of the given number. *)
Theorem init_base_receives_solution (args : list pyobj) (Re : Q)
    (deg : option Z) (kwargs : gmap string pyobj) :
  snd (__init__ args Re deg kwargs) = Ok () →
  ∃ kwargs' : gmap string pyobj,
    base_inits (fst (__init__ args Re deg kwargs)) = [(args, kwargs')] ∧
    last (fst (__init__ args Re deg kwargs)) = Some (BaseInit args kwargs') ∧
    is_Some (kwargs' !! "solution") ∧
    attrs_set (fst (__init__ args Re deg kwargs))
    = [("reynolds_number", Constant Re)].
Proof.
  init_cases args Re deg kwargs; cbn [fst snd]; try discriminate; intros _.
  - exists kwargs. repeat split. by rewrite Hs.
  - eexists. repeat split. rewrite lookup_insert_eq. eauto.
Qed.

Lemma init_base_receives_solution_witness :
  ∃ kwargs' : gmap string pyobj,
    base_inits (fst (__init__ [] 100 None {[ "mesh" := ObjMesh Examples.unit_square ]}))
    = [([], kwargs')] ∧
    last (fst (__init__ [] 100 None {[ "mesh" := ObjMesh Examples.unit_square ]}))
    = Some (BaseInit [] kwargs') ∧
    is_Some (kwargs' !! "solution") ∧
    attrs_set (fst (__init__ [] 100 None {[ "mesh" := ObjMesh Examples.unit_square ]}))
    = [("reynolds_number", Constant 100)].
Proof.
  apply (init_base_receives_solution [] 100 None
           {[ "mesh" := ObjMesh Examples.unit_square ]}).
  reflexivity.
Defined.



(** X9: the keyword arguments the base class receives agree with the
    given ones on every keyword but ["mesh"] and ["solution"]; with a
    supplied solution they are the given ones, a ["mesh"] entry included;
    without one they have no ["mesh"] entry. *)
Theorem init_other_keywords_pass (args args' : list pyobj) (Re : Q)
    (deg : option Z) (kwargs kwargs' : gmap string pyobj) :
  (args', kwargs') ∈ base_inits (fst (__init__ args Re deg kwargs)) →
  args' = args ∧
  (∀ k : string, k ≠ "mesh" → k ≠ "solution" → kwargs' !! k = kwargs !! k) ∧
  (is_Some (kwargs !! "solution") → kwargs' = kwargs) ∧
  (kwargs !! "solution" = None → kwargs' !! "mesh" = None).
Proof.
  init_cases args Re deg kwargs; cbn [fst]; intros H;
    try (by apply elem_of_nil in H).
  - apply list_elem_of_singleton in H. injection H as -> ->.
    repeat split; done.
  - apply list_elem_of_singleton in H. injection H as -> ->.
    split; [done|]. split; [|split].
    + intros k Hk1 Hk2. rewrite lookup_insert_ne by done.
      by rewrite lookup_delete_ne.
    + intros [? ?]. discriminate.
    + intros _. rewrite lookup_insert_ne by done. apply lookup_delete_eq.
Qed.

Lemma init_other_keywords_pass_witness :
  ([] : list pyobj) = [] ∧
  (∀ k : string, k ≠ "mesh" → k ≠ "solution" →
     (<["solution" := ObjFunction (MkFunction (MkFunctionSpace Examples.unit_square
                        (Examples.taylor_hood Examples.unit_square 1)))]>
        (delete "mesh" ({[ "mesh" := ObjMesh Examples.unit_square;
                           "time" := ObjOther 0 ]} : gmap string pyobj))) !! k
     = ({[ "mesh" := ObjMesh Examples.unit_square;
           "time" := ObjOther 0 ]} : gmap string pyobj) !! k) ∧
  (is_Some (({[ "mesh" := ObjMesh Examples.unit_square;
                "time" := ObjOther 0 ]} : gmap string pyobj) !! "solution") →
   <["solution" := ObjFunction (MkFunction (MkFunctionSpace Examples.unit_square
                        (Examples.taylor_hood Examples.unit_square 1)))]>
      (delete "mesh" ({[ "mesh" := ObjMesh Examples.unit_square;
                         "time" := ObjOther 0 ]} : gmap string pyobj))
   = {[ "mesh" := ObjMesh Examples.unit_square; "time" := ObjOther 0 ]}) ∧
  (({[ "mesh" := ObjMesh Examples.unit_square;
       "time" := ObjOther 0 ]} : gmap string pyobj) !! "solution" = None →
   (<["solution" := ObjFunction (MkFunction (MkFunctionSpace Examples.unit_square
                        (Examples.taylor_hood Examples.unit_square 1)))]>
      (delete "mesh" ({[ "mesh" := ObjMesh Examples.unit_square;
                         "time" := ObjOther 0 ]} : gmap string pyobj))) !! "mesh"
   = None).
Proof.
  apply (init_other_keywords_pass [] [] 100 None
           {[ "mesh" := ObjMesh Examples.unit_square; "time" := ObjOther 0 ]}).
  vm_compute. left.
Defined.

(** X10: with a supplied solution the pressure degree plays no part: any
    two degrees, given or omitted, lead to the same run, which builds
    nothing. *)
Theorem init_degree_ignored_with_solution (args : list pyobj) (Re : Q)
    (deg deg' : option Z) (kwargs : gmap string pyobj) :
  is_Some (kwargs !! "solution") →
  __init__ args Re deg kwargs = __init__ args Re deg' kwargs ∧
  filter (λ ev, constructs_space ev = true) (fst (__init__ args Re deg kwargs)) = [].
Proof.
  intros Hs. rewrite !(init_with_solution _ _ _ _ Hs). split; reflexivity.
Qed.

Lemma init_degree_ignored_with_solution_witness :
  __init__ [] 100 (Some 3%Z) {[ "solution" := ObjFunction (MkFunction Examples.W) ]}
  = __init__ [] 100 None {[ "solution" := ObjFunction (MkFunction Examples.W) ]} ∧
  filter (λ ev, constructs_space ev = true)
    (fst (__init__ [] 100 (Some 3%Z)
            {[ "solution" := ObjFunction (MkFunction Examples.W) ]})) = [].
Proof.
  apply (init_degree_ignored_with_solution [] 100 (Some 3%Z) None
           {[ "solution" := ObjFunction (MkFunction Examples.W) ]}).
  by eexists.
Defined.

(** ** Solving: failures, the shift of the pressure, what stays *)

(** X11: [solve()] returns exactly when the base solver returns and
    leaves a pressure sub-function. *)
Theorem solve_returns_iff (base_solve : method Function) (s : Simulation) :
  (∃ ret : Function, snd (solve base_solve s) = Ok ret) ↔
  (∃ sol : Function, snd (base_solve s) = Ok sol) ∧
  is_Some (post_processing_solution_fields (fst (base_solve s)) !! "p").
Proof.
  destruct (base_solve s) as [s1 [sol|e]] eqn:Hb; cbn [fst snd].
  - destruct (post_processing_solution_fields s1 !! "p") as [p|] eqn:Hp.
    + rewrite (solve_returns base_solve s s1 sol p Hb Hp). cbn [snd].
      split; eauto.
    + unfold solve, mbind. rewrite Hb.
      cbn [set_solution print try_read post_processing_solution_fields].
      rewrite (getitem_None _ _ Hp). cbn [snd].
      split; [intros [? ?]; discriminate | intros [_ [? ?]]; discriminate].
  - unfold solve, mbind. rewrite Hb. cbn [snd].
    split; [intros [? ?]; discriminate | intros [[? ?] _]; discriminate].
Qed.

(** X12: when [solve()] raises, no nodal value has changed since the base
    solve.  Either the base solver raised, and its exception and state are
    passed on with nothing printed; or there is no pressure sub-function,
    the exception is [KeyError] for ["p"], the solution is already set
    and only the first line is printed. *)
Theorem solve_raises (base_solve : method Function) (s s2 : Simulation) (e : exn) :
  solve base_solve s = (s2, Raise e) →
  store s2 = store (fst (base_solve s)) ∧
  (base_solve s = (s2, Raise e)
   ∨ ∃ sol : Function,
       snd (base_solve s) = Ok sol ∧
       post_processing_solution_fields (fst (base_solve s)) !! "p" = None ∧
       e = KeyError "p" ∧
       solution s2 = sol ∧
       stdout s2 = stdout (fst (base_solve s)) ++ ["Subtracting mean pressure"]).
Proof.
  destruct (base_solve s) as [s1 [sol|e1]] eqn:Hb; cbn [fst snd].
  - destruct (post_processing_solution_fields s1 !! "p") as [p|] eqn:Hp.
    + rewrite (solve_returns base_solve s s1 sol p Hb Hp). discriminate.
    + unfold solve, mbind. rewrite Hb.
      cbn [set_solution print try_read post_processing_solution_fields].
      rewrite (getitem_None _ _ Hp). intros H. injection H as <- <-.
      split; [reflexivity|]. right. exists sol. repeat split.
  - unfold solve, mbind. rewrite Hb. intros H. injection H as <- <-.
    split; [reflexivity|]. by left.
Qed.

Lemma solve_raises_witness :
  store (interrupted_state sim_without_subfunctions (solution Examples.sim))
  = store (fst (Examples.solved sim_without_subfunctions)) ∧
  (Examples.solved sim_without_subfunctions
   = (interrupted_state sim_without_subfunctions (solution Examples.sim),
      Raise (KeyError "p"))
   ∨ ∃ sol : Function,
       snd (Examples.solved sim_without_subfunctions) = Ok sol ∧
       post_processing_solution_fields (fst (Examples.solved sim_without_subfunctions))
         !! "p" = None ∧
       KeyError "p" = KeyError "p" ∧
       solution (interrupted_state sim_without_subfunctions (solution Examples.sim))
       = sol ∧
       stdout (interrupted_state sim_without_subfunctions (solution Examples.sim))
       = stdout (fst (Examples.solved sim_without_subfunctions))
         ++ ["Subtracting mean pressure"]).
Proof.
  apply (solve_raises Examples.solved sim_without_subfunctions
           (interrupted_state sim_without_subfunctions (solution Examples.sim))
           (KeyError "p")).
  reflexivity.
Defined.






(** X15: whether [solve()] returns or raises, the state it leaves gives
    the same residual forms, the same null space and the same strong
    residual as the state the base solver left. *)
Theorem solve_keeps_forms (base_solve : method Function) (s : Simulation) :
  let s1 := fst (base_solve s) in
  let s2 := fst (solve base_solve s) in
  mass s2 = mass s1 ∧
  momentum s2 = momentum s1 ∧
  weak_form_residual s2 = weak_form_residual s1 ∧
  nullspace s2 = nullspace s1 ∧
  ∀ sol : expr * expr, strong_residual s2 sol = strong_residual s1 sol.
Proof.
  cbn zeta. unfold solve, mbind.
  destruct (base_solve s) as [s1 [sol|e]] eqn:Hb; cbn [fst].
  - cbn [set_solution print try_read post_processing_solution_fields].
    destruct (getitem (post_processing_solution_fields s1) "p") as [p|e];
      cbn [fst]; repeat split.
  - repeat split.
Qed.

(** ** The null space and the element fit together *)

(** X16: for a simulation on a function space that [__init__] built, the
    null space [nullspace()] declares has one entry per component of the
    mixed element, in the same order: the basis of constants stands at the
    scalar (pressure) element and the passed subspace at the vector
    (velocity) element. *)
Theorem nullspace_matches_taylor_hood (args : list pyobj) (Re : Q)
    (deg : option Z) (kwargs : gmap string pyobj) (self : Simulation)
    (V_u : IndexedSpace) :
  NewFunctionSpace (solution_space self) ∈ fst (__init__ args Re deg kwargs) →
  solution_subspaces self !! "u" = Some V_u →
  ∃ (N : MixedVectorSpaceBasis) (e_p e_u : element) (b : VectorSpaceBasis),
    nullspace self = Ok N ∧
    mixed_sub_elements (ufl_element (mixed_space N)) = [e_p; e_u] ∧
    bases N = [Basis b; Subspace V_u] ∧
    is_scalar_element e_p = true ∧ constant b = true ∧ vecs b = [] ∧
    is_vector_element e_u = true.
Proof.
  intros HV Hu. unfold nullspace. rewrite (getitem_Some _ _ _ Hu). cbn [rbind].
  revert HV. init_cases args Re deg kwargs; cbn [fst]; intros HV;
    try (by apply elem_of_nil in HV).
  - repeat (apply elem_of_cons in HV as [HV|HV]; [discriminate|]).
    by apply elem_of_nil in HV.
  - do 3 (apply elem_of_cons in HV as [HV|HV]; [discriminate|]).
    apply elem_of_cons in HV as [HV|HV].
    + injection HV as HV. rewrite HV.
      eexists _, _, _, _. repeat split.
    + repeat (apply elem_of_cons in HV as [HV|HV]; [discriminate|]).
      by apply elem_of_nil in HV.
Qed.

Lemma nullspace_matches_taylor_hood_witness :
  ∃ (N : MixedVectorSpaceBasis) (e_p e_u : element) (b : VectorSpaceBasis),
    nullspace Examples.sim = Ok N ∧
    mixed_sub_elements (ufl_element (mixed_space N)) = [e_p; e_u] ∧
    bases N = [Basis b; Subspace (MkIndexedSpace Examples.W 1)] ∧
    is_scalar_element e_p = true ∧ constant b = true ∧ vecs b = [] ∧
    is_vector_element e_u = true.
Proof.
  apply (nullspace_matches_taylor_hood [] 100 None
           {[ "mesh" := ObjMesh Examples.unit_interval ]} Examples.sim
           (MkIndexedSpace Examples.W 1)).
  - vm_compute. do 3 right. left.
  - reflexivity.
Defined.

(** ** What the residuals read *)

(** X17: the residual forms are read off the symbols alone: two
    simulations with the same entries ["p"] and ["u"] among the fields
    and the test functions, the same Reynolds number and the same measure
    give the same [weak_form_residual()], form or exception, whatever
    their solutions, spaces and nodal values are. *)
Theorem weak_form_residual_reads (self self' : Simulation) :
  solution_fields self' !! "p" = solution_fields self !! "p" →
  solution_fields self' !! "u" = solution_fields self !! "u" →
  test_functions self' !! "p" = test_functions self !! "p" →
  test_functions self' !! "u" = test_functions self !! "u" →
  reynolds_number self' = reynolds_number self →
  dx self' = dx self →
  weak_form_residual self' = weak_form_residual self.
Proof.
  intros Hp Hu Hpp Hpu HRe Hdx.
  unfold weak_form_residual, mass, momentum.
  rewrite (getitem_agree _ _ _ Hp), (getitem_agree _ _ _ Hu),
    (getitem_agree _ _ _ Hpp), (getitem_agree _ _ _ Hpu), HRe, Hdx.
  reflexivity.
Qed.

Lemma weak_form_residual_reads_witness :
  weak_form_residual (Examples.sim_on 2 5) = weak_form_residual Examples.sim.
Proof.
  apply (weak_form_residual_reads Examples.sim (Examples.sim_on 2 5));
    reflexivity.
Defined.
